(** * BitcoinLedgerProvider: coin selection, fee estimation and output assembly

    A shallow embedding of [src/providers/bitcoin/BitcoinLedgerProvider.js].

    Conventions of the embedding.
    - JavaScript numbers are modelled by [number]: an integer (exact, as
      IEEE doubles are on integers below 2^53) or [NaN].  [NaN] is needed
      because the selector calls [calculateFee] with its third argument
      omitted.
    - A call to an [async] method is modelled by the value it resolves to, the
      calls being sequenced in program order.
    - The two [while] loops of the provider have no syntactic bound; they are
      modelled with a fuel argument, and running out of fuel is the outcome
      [Timeout].  A loop "returns" when some fuel yields [Ok], and "never
      returns" when every fuel yields [Timeout].
    - Collaborators whose code is not part of the provider (the node query
      interface, the signing device, the helpers of BitcoinUtil, the network
      table) are fields of the record [Provider]; they are total functions,
      that is, the collaborators answer. *)

From Stdlib Require Import ZArith List String Ascii Bool Lia.
Import ListNotations.

Open Scope string_scope.
Open Scope list_scope.
Open Scope Z_scope.

(** ** JavaScript numbers *)

Inductive number : Type :=
| Num (z : Z)
| NaN.

Module Js.

(** [ToNumber(undefined)], the value of an omitted numeric argument. *)
Definition undefined : number := NaN.

Definition add (a b : number) : number :=
  match a, b with
  | Num x, Num y => Num (x + y)
  | _, _ => NaN
  end.

Definition sub (a b : number) : number :=
  match a, b with
  | Num x, Num y => Num (x - y)
  | _, _ => NaN
  end.

Definition mul (a b : number) : number :=
  match a, b with
  | Num x, Num y => Num (x * y)
  | _, _ => NaN
  end.

(** Relational operators: any comparison with [NaN] is false. *)
Definition lt (a b : number) : bool :=
  match a, b with
  | Num x, Num y => x <? y
  | _, _ => false
  end.

Definition gt (a b : number) : bool := lt b a.

Definition le (a b : number) : bool :=
  match a, b with
  | Num x, Num y => x <=? y
  | _, _ => false
  end.

End Js.

(** ** Outcomes of a call: a value, a thrown [Error] or no answer *)

Inductive outcome (A : Type) : Type :=
| Ok (a : A)
| Throw (message : string)
| Timeout.

Arguments Ok {A} a.
Arguments Throw {A} message.
Arguments Timeout {A}.

Definition bind {A B : Type} (c : outcome A) (k : A -> outcome B) : outcome B :=
  match c with
  | Ok a => k a
  | Throw e => Throw e
  | Timeout => Timeout
  end.

Notation "x <- c ;; k" := (bind c (fun x => k))
  (at level 61, c at next level, right associativity).

(** ** Fee estimation (lines 113-115) *)

Definition calculateFee (numInputs numOutputs feePerByte : number) : number :=
  Js.mul (Js.add (Js.add (Js.mul numInputs (Num 148)) (Js.mul numOutputs (Num 34))) (Num 10))
         feePerByte.

(** ** Hexadecimal strings and byte buffers

    A [Buffer] is a list of bytes, each an integer in [0, 256). *)

Definition Buffer : Type := list Z.

Module Hex.

(** The digit of [d] in [0, 16), as [toString(16)] prints it. *)
Definition hexDigit (d : Z) : ascii :=
  match d return ascii with
  | 0 => "0" | 1 => "1" | 2 => "2" | 3 => "3"
  | 4 => "4" | 5 => "5" | 6 => "6" | 7 => "7"
  | 8 => "8" | 9 => "9" | 10 => "a" | 11 => "b"
  | 12 => "c" | 13 => "d" | 14 => "e" | 15 => "f"
  | _ => "0"
  end%char.

(** The value of a hexadecimal digit, in either case. *)
Definition hexVal (c : ascii) : option Z :=
  let n := Z.of_nat (nat_of_ascii c) in
  if (48 <=? n) && (n <=? 57) then Some (n - 48)
  else if (97 <=? n) && (n <=? 102) then Some (n - 87)
  else if (65 <=? n) && (n <=? 70) then Some (n - 55)
  else None.


(** The digits of [n], most significant first, pushed in front of [acc]. *)
Fixpoint hexDigits (fuel : nat) (n : Z) (acc : string) : string :=
  match fuel with
  | O => acc
  | S fuel' =>
      if n =? 0 then acc
      else hexDigits fuel' (n / 16) (String (hexDigit (n mod 16)) acc)
  end.

(** [BigNumber(n).toString(16)] on an integer: lower-case digits without
    leading zeros, ["0"] for zero, a leading minus sign below zero, and
    ["NaN"] for [NaN]. *)
Definition toString16 (a : number) : string :=
  match a with
  | NaN => "NaN"
  | Num n =>
      if n =? 0 then "0"
      else if n <? 0 then String "-" (hexDigits (S (Z.to_nat (Z.log2 (- n)))) (- n) "")
      else hexDigits (S (Z.to_nat (Z.log2 n))) n ""
  end.

Fixpoint pad (k : nat) (fill : ascii) (s : string) : string :=
  match k with
  | O => s
  | S k' => String fill (pad k' fill s)
  end.

(** [String.prototype.padStart] with a one-character filler. *)
Definition padStart (s : string) (targetLength : nat) (fill : ascii) : string :=
  pad (targetLength - String.length s) fill s.

(** [Buffer.from(s, 'hex')]: one byte per pair of digits; decoding stops at
    the first pair that is not two hexadecimal digits, and a trailing single
    digit is dropped. *)
Fixpoint fromHex (s : string) : Buffer :=
  match s with
  | String a (String b rest) =>
      match hexVal a, hexVal b with
      | Some x, Some y => (16 * x + y) :: fromHex rest
      | _, _ => []
      end
  | _ => []
  end.

(** [buffer.toString('hex')]: two lower-case digits per byte. *)
Fixpoint toHex (b : Buffer) : string :=
  match b with
  | [] => ""
  | x :: rest => String (hexDigit (x / 16)) (String (hexDigit (x mod 16)) (toHex rest))
  end.

(** [String.prototype.toUpperCase] on ASCII text. *)
Definition upper (c : ascii) : ascii :=
  let n := nat_of_ascii c in
  if ((97 <=? n) && (n <=? 122))%nat then ascii_of_nat (n - 32) else c.

Fixpoint toUpperCase (s : string) : string :=
  match s with
  | EmptyString => EmptyString
  | String c rest => String (upper c) (toUpperCase rest)
  end.

(** The number a digit string denotes (digits that are not hexadecimal count
    as zero), and the well-formedness of a digit string. *)
Definition digitVal (c : ascii) : Z :=
  match hexVal c with Some d => d | None => 0 end.

Fixpoint hexValue (s : string) : Z :=
  match s with
  | EmptyString => 0
  | String c rest => digitVal c * 16 ^ Z.of_nat (String.length rest) + hexValue rest
  end.

Fixpoint isHex (s : string) : Prop :=
  match s with
  | EmptyString => True
  | String c rest => hexVal c <> None /\ isHex rest
  end.

(** The number a buffer denotes, least significant byte first. *)
Fixpoint leValue (b : Buffer) : Z :=
  match b with
  | [] => 0
  | x :: rest => x + 256 * leValue rest
  end.

Definition isByte (x : Z) : Prop := 0 <= x < 256.

End Hex.

(** Modelled from the spec: [padHexStart] is imported from [../../crypto],
    which is not among the sources.  It pads a hexadecimal string on the left
    with the digit 0 up to the requested number of digits (the string's own
    length when none is requested), rounded up to an even number. *)
Definition padHexStart (hex : string) (length : option nat) : string :=
  let len := match length with
             | Some (S l) => S l
             | _ => String.length hex
             end in
  let len := (len + len mod 2)%nat in
  Hex.padStart hex len "0"%char.

(** ** Amount encoding (lines 63-68) *)

Definition getAmountBuffer (amount : number) : Buffer :=
  let hexAmount := Hex.toString16 amount in
  let hexAmount := padHexStart hexAmount (Some 16%nat) in
  let valueBuffer := Hex.fromHex hexAmount in
  rev valueBuffer.


(** ** Data of the provider *)

(** One record of the network table ([../../networks]); the version bytes are
    upper-case two-digit hexadecimal strings. *)
Record NetworkParams : Type := {
  name : string;
  coinType : string;
  pubKeyHash : string;
  scriptHash : string;
  explorerUrl : string
}.

Module Address.
(** [new Address(address, derivationPath)]. *)
Record t : Type := {
  address : string;
  derivationPath : string
}.
End Address.

Module UTXO.
(** An unspent output as the node reports it; [derivationPath] is absent
    until the selector sets it. *)
Record t : Type := {
  tx_hash_big_endian : string;
  tx_output_n : Z;
  value : Z;
  derivationPath : option string
}.

(** [utxo.derivationPath = path]. *)
Definition setDerivationPath (utxo : t) (path : string) : t :=
  {| tx_hash_big_endian := tx_hash_big_endian utxo;
     tx_output_n := tx_output_n utxo;
     value := value utxo;
     derivationPath := Some path |}.
End UTXO.

(** The optional argument [from] of [getUnusedAddress]. *)
Record From : Type := { index : option Z }.

Record Output : Type := {
  amount : Buffer;
  script : Buffer
}.

(** What [createSignedTransaction] hands to the signing device. *)
Record PaymentRequest (SplitTx : Type) : Type := {
  ledgerInputs : list (SplitTx * Z);
  paths : list (option string);
  changePath : string;
  outputs : list Output
}.

Arguments ledgerInputs {SplitTx} _.
Arguments paths {SplitTx} _.
Arguments changePath {SplitTx} _.
Arguments outputs {SplitTx} _.

(** The provider instance ([this]): its configuration and the collaborators it
    reaches through [getApp], [getMethod] and its imports. *)
Record Provider (SplitTx SignedTx : Type) : Type := {
  _network : NetworkParams;
  _segwit : bool;
  (* LedgerProvider *)
  getDerivationPathFromIndex : Z -> string;
  (* signing device: the [bitcoinAddress] of [getWalletPublicKey(path, false, segwit)] *)
  getWalletPublicKey : string -> bool -> bool -> string;
  splitTransaction : string -> bool -> SplitTx;
  serializeTransactionOutputs : list Output -> Buffer;
  createPaymentTransactionNew :
    list (SplitTx * Z) -> list (option string) -> string -> string -> SignedTx;
  (* node query interface *)
  isUsedAddress : string -> bool;
  getUnspentTransactions : string -> list UTXO.t;
  getTransactionHex : string -> string;
  (* [../../crypto] and [./BitcoinUtil] *)
  base58_decode : string -> Buffer;
  addressToPubKeyHash : string -> string;
  pubKeyToAddress : string -> string -> string -> string
}.

Arguments _network {SplitTx SignedTx} _.
Arguments _segwit {SplitTx SignedTx} _.
Arguments getDerivationPathFromIndex {SplitTx SignedTx} _ _.
Arguments getWalletPublicKey {SplitTx SignedTx} _ _ _ _.
Arguments splitTransaction {SplitTx SignedTx} _ _ _.
Arguments serializeTransactionOutputs {SplitTx SignedTx} _ _.
Arguments createPaymentTransactionNew {SplitTx SignedTx} _ _ _ _ _.
Arguments isUsedAddress {SplitTx SignedTx} _ _.
Arguments getUnspentTransactions {SplitTx SignedTx} _ _.
Arguments getTransactionHex {SplitTx SignedTx} _ _.
Arguments base58_decode {SplitTx SignedTx} _ _.
Arguments addressToPubKeyHash {SplitTx SignedTx} _ _.
Arguments pubKeyToAddress {SplitTx SignedTx} _ _ _ _.

(** State of the selector's loop: the three variables it updates. *)
Record Selection : Type := {
  currentAmount : Z;
  numOutputsOffset : Z;
  utxosToUse : list UTXO.t
}.

(** [utxos.reduce((acc, utxo) => acc + utxo.value, 0)]. *)
Definition sumValues (utxos : list UTXO.t) : Z :=
  fold_left (fun acc utxo => acc + UTXO.value utxo) utxos 0.

Section Methods.

Context {SplitTx SignedTx : Type}.
Variable this : Provider SplitTx SignedTx.

(** *** getAddressFromDerivationPath (lines 29-33) *)
Definition getAddressFromDerivationPath (path : string) : Address.t :=
  let bitcoinAddress := getWalletPublicKey this path false (_segwit this) in
  {| Address.address := bitcoinAddress; Address.derivationPath := path |}.

(** *** getUnusedAddress (lines 47-61)

    The body of the [while] loop never assigns [addressIndex], so the next
    iteration runs at the same index.  Lines 53 and 54 call the device and
    the node without [await]; as everywhere, the calls stand for their
    resolved values. *)
Fixpoint getUnusedAddress_loop (fuel : nat) (addressIndex : Z) : outcome Address.t :=
  match fuel with
  | O => Timeout
  | S fuel' =>
      let path := getDerivationPathFromIndex this addressIndex in
      let address := getAddressFromDerivationPath path in
      let isUsed := isUsedAddress this (Address.address address) in
      if negb isUsed then Ok address
      else getUnusedAddress_loop fuel' addressIndex
  end.

(** [from.index || 0], with [from = {}] by default. *)
Definition startIndex (from : option From) : Z :=
  match from with
  | Some {| index := Some i |} => i
  | _ => 0
  end.

Definition getUnusedAddress (fuel : nat) (from : option From) : outcome Address.t :=
  getUnusedAddress_loop fuel (startIndex from).

(** *** generateScript (lines 88-111) *)
Definition addressType (address : string) : string :=
  Hex.toUpperCase (substring 0 2 (Hex.toHex (base58_decode this address))).

Definition generateScript (address : string) : outcome string :=
  let type := addressType address in
  let pubKeyHash' := addressToPubKeyHash this address in
  if String.eqb type (pubKeyHash (_network this)) then
    Ok (String.concat "" ["76"; "a9"; "14"; pubKeyHash'; "88"; "ac"])
  else if String.eqb type (scriptHash (_network this)) then
    Ok (String.concat "" ["a9"; "14"; pubKeyHash'; "87"])
  else
    Throw "Not a valid address:".

(** *** getUtxosForAmount (lines 117-148) *)

(** The callback of [utxos.forEach] (lines 130-141).  [calculateFee] is
    first called with two arguments, so its [feePerByte] is undefined. *)
Definition forEachBody (amount : Z) (feePerByte : number) (utxosValue : Z)
           (address : Address.t) (st : Selection) (utxo : UTXO.t) : Selection :=
  let currentAmount' := currentAmount st + utxosValue in
  let utxo' := UTXO.setDerivationPath utxo (Address.derivationPath address) in
  let utxosToUse' := utxosToUse st ++ [utxo'] in
  let fees := calculateFee (Num (Z.of_nat (List.length utxosToUse')))
                           (Num (numOutputsOffset st + 1)) Js.undefined in
  let totalCost := Js.add (Num amount) fees in
  if (numOutputsOffset st =? 0) && Js.gt (Num currentAmount') totalCost then
    let totalCost := Js.sub totalCost fees in
    let totalCost := Js.add totalCost
                       (calculateFee (Num (Z.of_nat (List.length utxosToUse'))) (Num 2) feePerByte) in
    {| currentAmount := currentAmount'; numOutputsOffset := 1; utxosToUse := utxosToUse' |}
  else
    {| currentAmount := currentAmount';
       numOutputsOffset := numOutputsOffset st;
       utxosToUse := utxosToUse' |}.

(** One iteration of the [while] loop, without [addressIndex++]
    (lines 124-142). *)
Definition visitAddress (amount : Z) (feePerByte : number)
           (addressIndex : Z) (st : Selection) : Selection :=
  let path := getDerivationPathFromIndex this addressIndex in
  let address := getAddressFromDerivationPath path in
  let utxos := getUnspentTransactions this (Address.address address) in
  let utxosValue := sumValues utxos in
  fold_left (forEachBody amount feePerByte utxosValue address) utxos st.

Fixpoint getUtxosForAmount_loop (amount : Z) (feePerByte : number)
         (fuel : nat) (addressIndex : Z) (st : Selection) : outcome (list UTXO.t) :=
  if currentAmount st <? amount then
    match fuel with
    | O => Timeout
    | S fuel' =>
        getUtxosForAmount_loop amount feePerByte fuel' (addressIndex + 1)
                               (visitAddress amount feePerByte addressIndex st)
    end
  else Ok (utxosToUse st).

Definition getUtxosForAmount (fuel : nat) (amount : Z) (feePerByte : option number)
  : outcome (list UTXO.t) :=
  let feePerByte := match feePerByte with Some f => f | None => Num 3 end in
  getUtxosForAmount_loop amount feePerByte fuel 0
    {| currentAmount := 0; numOutputsOffset := 0; utxosToUse := [] |}.

(** *** getLedgerInputs (lines 150-159) *)
Definition getLedgerInputs (unspentOutputs : list UTXO.t) : list (SplitTx * Z) :=
  map (fun utxo =>
         let hex := getTransactionHex this (UTXO.tx_hash_big_endian utxo) in
         let tx := splitTransaction this hex true in
         (tx, UTXO.tx_output_n utxo))
      unspentOutputs.

(** *** createSignedTransaction (lines 161-207) *)

(** Lines 172-182: the cost of the transaction and whether it has a change
    output. *)
Definition totalCostOf (value : Z) (unspentOutputsToUse : list UTXO.t) : number * bool :=
  let totalAmount := sumValues unspentOutputsToUse in
  let numInputs := Num (Z.of_nat (List.length unspentOutputsToUse)) in
  let fee := calculateFee numInputs (Num 1) (Num 3) in
  let totalCost := Js.add (Num value) fee in
  if Js.gt (Num totalAmount) totalCost then
    let totalCost := Js.sub totalCost fee in
    let totalCost := Js.add totalCost (calculateFee numInputs (Num 2) (Num 3)) in
    (totalCost, true)
  else (totalCost, false).

(** Lines 164-167: a non-empty [data] replaces the recipient by the
    script-hash address of the padded script. *)
Definition recipientAddress (to : string) (data : option string) : string :=
  match data with
  | Some (String c d) =>
      let scriptPubKey := padHexStart (String c d) None in
      pubKeyToAddress this scriptPubKey (name (_network this)) "scriptHash"
  | _ => to
  end.

(** Lines 164-201: everything up to the assembled output list.  Lines 169
    and 170 call [getUnusedAddress] and [getUtxosForAmount] without [await];
    the calls stand for their resolved values, in program order. *)
Definition paymentRequest (fuel : nat) (to : string) (value : Z)
           (data : option string) (from : option From)
  : outcome (PaymentRequest SplitTx) :=
  let to := recipientAddress to data in
  unusedAddress <- getUnusedAddress fuel from ;;
  unspentOutputsToUse <- getUtxosForAmount fuel value None ;;
  let totalAmount := sumValues unspentOutputsToUse in
  let '(totalCost, hasChange) := totalCostOf value unspentOutputsToUse in
  if Js.lt (Num totalAmount) totalCost then Throw "Not enough balance"
  else
    let ledgerInputs := getLedgerInputs unspentOutputsToUse in
    let paths := map UTXO.derivationPath unspentOutputsToUse in
    let sendAmount := Num value in
    let changeAmount := Js.sub (Num totalAmount) totalCost in
    sendScript <- generateScript to ;;
    let outputs := [ {| amount := getAmountBuffer sendAmount;
                        script := Hex.fromHex sendScript |} ] in
    outputs <- (if hasChange then
                  changeScript <- generateScript (Address.address unusedAddress) ;;
                  Ok (outputs ++ [ {| amount := getAmountBuffer changeAmount;
                                      script := Hex.fromHex changeScript |} ])
                else Ok outputs) ;;
    Ok {| ledgerInputs := ledgerInputs;
          paths := paths;
          changePath := Address.derivationPath unusedAddress;
          outputs := outputs |}.

(** Lines 203-206: serialization and signing on the device. *)
Definition createSignedTransaction (fuel : nat) (to : string) (value : Z)
           (data : option string) (from : option From) : outcome SignedTx :=
  request <- paymentRequest fuel to value data from ;;
  let serializedOutputs :=
    Hex.toHex (serializeTransactionOutputs this (outputs request)) in
  Ok (createPaymentTransactionNew this (ledgerInputs request) (paths request)
                                  (changePath request) serializedOutputs).

End Methods.

(** ** A concrete provider, for running the model

    A wallet on the bitcoin network whose derivation path at index [i] ends
    with [i] in unary and whose address at a path is ["1"] followed by the
    path; the node answers from two tables. *)

Module Sample.

Definition bitcoin : NetworkParams :=
  {| name := "bitcoin"; coinType := "0"; pubKeyHash := "00"; scriptHash := "05";
     explorerUrl := "https://blockchain.info" |}.

Fixpoint unary (n : nat) : string :=
  match n with
  | O => ""
  | S n' => String "i" (unary n')
  end.

Definition pathOf (i : Z) : string := ("44'/0'/0'/0/" ++ unary (Z.to_nat i))%string.

Definition walletAddress (path : string) : string := String "1" path.

(** Version byte by the first character of the address, as base58check
    has it: ['1'] is mainnet pay-to-pubkey-hash (00), ['3'] mainnet
    pay-to-script-hash (05), ['m'] and ['n'] testnet pay-to-pubkey-hash (6f),
    ['2'] testnet pay-to-script-hash (c4); anything else decodes to ff. *)
Definition decode (address : string) : Buffer :=
  match address with
  | String "1" _ => [0; 1; 2; 3]
  | String "3" _ => [5; 1; 2; 3]
  | String "m" _ | String "n" _ => [111; 1; 2; 3]
  | String "2" _ => [196; 1; 2; 3]
  | _ => [255; 1; 2; 3]
  end.

Definition hash160 (address : string) : string :=
  "000102030405060708090a0b0c0d0e0f10111213".

Definition provider (used : string -> bool) (unspent : string -> list UTXO.t)
  : Provider string (PaymentRequest string * string) :=
  {| _network := bitcoin;
     _segwit := false;
     getDerivationPathFromIndex := pathOf;
     getWalletPublicKey := fun path _ _ => walletAddress path;
     splitTransaction := fun hex _ => hex;
     serializeTransactionOutputs :=
       fun outs => flat_map (fun o => amount o ++ script o) outs;
     createPaymentTransactionNew :=
       fun inputs paths changePath serialized =>
         ({| ledgerInputs := inputs; paths := paths; changePath := changePath;
             outputs := [] |}, serialized);
     isUsedAddress := used;
     getUnspentTransactions := unspent;
     getTransactionHex := fun hash => hash;
     base58_decode := decode;
     addressToPubKeyHash := hash160;
     pubKeyToAddress := fun scriptPubKey _ _ => String "3" scriptPubKey |}.

Definition coin (hash : string) (v : Z) : UTXO.t :=
  {| UTXO.tx_hash_big_endian := hash; UTXO.tx_output_n := 0; UTXO.value := v;
     UTXO.derivationPath := None |}.

(** A node that knows one address, the wallet's first, and its coins. *)
Definition unspentAtFirst (coins : list UTXO.t) (address : string) : list UTXO.t :=
  if String.eqb address (walletAddress (pathOf 0)) then coins else [].

Definition neverUsed (address : string) : bool := false.
Definition alwaysUsed (address : string) : bool := true.
Definition onlyFirstUsed (address : string) : bool :=
  String.eqb address (walletAddress (pathOf 0)).
Definition noCoins (address : string) : list UTXO.t := [].

End Sample.

(** ** Vocabulary of the statements *)

Section Vocabulary.

Context {SplitTx SignedTx : Type}.
Variable this : Provider SplitTx SignedTx.

(** The wallet's address at a derivation index and the UTXOs the node
    reports for it. *)
Definition addressAt (i : Z) : Address.t :=
  getAddressFromDerivationPath this (getDerivationPathFromIndex this i).

Definition batchAt (i : Z) : list UTXO.t :=
  getUnspentTransactions this (Address.address (addressAt i)).

(** What the node answers when asked whether the address at index [i] is
    used. *)
Definition usedAt (i : Z) : bool :=
  isUsedAddress this (Address.address (addressAt i)).

(** The batch at index [i] as the selector stores it, each UTXO carrying
    the derivation path of its address. *)
Definition taggedBatchAt (i : Z) : list UTXO.t :=
  map (fun utxo => UTXO.setDerivationPath utxo (Address.derivationPath (addressAt i)))
      (batchAt i).

(** The UTXOs of the [n] addresses from index [i] on, in scan order. *)
Fixpoint gatheredFrom (i : Z) (n : nat) : list UTXO.t :=
  match n with
  | O => []
  | S n' => taggedBatchAt i ++ gatheredFrom (i + 1) n'
  end.

(** What the selector's running total gains over the [n] addresses from
    index [i] on: for each address, the size of its batch times the value
    of its batch. *)
Fixpoint collectedFrom (i : Z) (n : nat) : Z :=
  match n with
  | O => 0
  | S n' => Z.of_nat (List.length (batchAt i)) * sumValues (batchAt i)
            + collectedFrom (i + 1) n'
  end.

(** The selector's state after it has visited the [n] addresses from index
    [i] on, starting in state [st]; [scanned] starts the scan as
    [getUtxosForAmount] does. *)
Fixpoint scanFrom (amount : Z) (feePerByte : number) (i : Z) (st : Selection) (n : nat)
  : Selection :=
  match n with
  | O => st
  | S n' => scanFrom amount feePerByte (i + 1) (visitAddress this amount feePerByte i st) n'
  end.

Definition scanned (amount : Z) (feePerByte : option number) (n : nat) : Selection :=
  scanFrom amount (match feePerByte with Some f => f | None => Num 3 end) 0
           {| currentAmount := 0; numOutputsOffset := 0; utxosToUse := [] |} n.

End Vocabulary.

(** ** signMessage (lines 35-45)

    A string stands for the bytes of its UTF-8 encoding, which is what
    [Buffer.from(message)] stores.  The device's [signMessageNew] and
    [getDerivationPathFromAddress] of LedgerProvider are collaborators. *)

Record MessageSigner (Signature : Type) : Type := {
  signMessageNew : string -> string -> Signature;
  getDerivationPathFromAddress : Address.t -> string
}.

Arguments signMessageNew {Signature} _ _ _.
Arguments getDerivationPathFromAddress {Signature} _ _.

(** [Buffer.from(message)]. *)
Definition bytesOfString (message : string) : Buffer :=
  map (fun c => Z.of_nat (nat_of_ascii c)) (list_ascii_of_string message).

(** Line 43. *)
Definition messageHex (message : string) : string :=
  Hex.toHex (bytesOfString message).

(** Lines 37-41: an absent or empty [from.derivationPath] is looked up. *)
Definition signingPath {Signature : Type} (signer : MessageSigner Signature)
           (from : Address.t) : string :=
  let derivationPath := Address.derivationPath from in
  if String.eqb derivationPath "" then getDerivationPathFromAddress signer from
  else derivationPath.

Definition signMessage {Signature : Type} (signer : MessageSigner Signature)
           (message : string) (from : Address.t) : Signature :=
  let derivationPath := signingPath signer from in
  let hex := messageHex message in
  signMessageNew signer derivationPath hex.

(** ** Further vocabulary *)

(** The characters [toUpperCase] can leave in a hexadecimal string, and the
    shape of a version-byte string: empty or two such characters. *)
Definition isUpperHexDigit (c : ascii) : Prop :=
  In c (list_ascii_of_string "0123456789ABCDEF").

Definition isVersionByteText (s : string) : Prop :=
  s = "" \/ exists c1 c2 : ascii,
              s = String c1 (String c2 "") /\ isUpperHexDigit c1 /\ isUpperHexDigit c2.

(** The testnet table written with lower-case version bytes. *)
Definition lowerCaseTestnet : NetworkParams :=
  {| name := "bitcoin_testnet"; coinType := "1"; pubKeyHash := "6f"; scriptHash := "c4";
     explorerUrl := "https://testnet.blockchain.info" |}.

(** A provider that differs from a given one in its network table only. *)
Definition onNetwork {SplitTx SignedTx : Type} (network : NetworkParams)
           (this : Provider SplitTx SignedTx) : Provider SplitTx SignedTx :=
  {| _network := network;
     _segwit := _segwit this;
     getDerivationPathFromIndex := getDerivationPathFromIndex this;
     getWalletPublicKey := getWalletPublicKey this;
     splitTransaction := splitTransaction this;
     serializeTransactionOutputs := serializeTransactionOutputs this;
     createPaymentTransactionNew := createPaymentTransactionNew this;
     isUsedAddress := isUsedAddress this;
     getUnspentTransactions := getUnspentTransactions this;
     getTransactionHex := getTransactionHex this;
     base58_decode := base58_decode this;
     addressToPubKeyHash := addressToPubKeyHash this;
     pubKeyToAddress := pubKeyToAddress this |}.

(** The two costs [createSignedTransaction] compares the selected value
    with: send value plus the fee of [n] inputs and one, or two, outputs at 3
    per byte. *)
Definition oneOutputCost (value : Z) (n : nat) : Z :=
  value + (Z.of_nat n * 148 + 1 * 34 + 10) * 3.

Definition twoOutputCost (value : Z) (n : nat) : Z :=
  value + (Z.of_nat n * 148 + 2 * 34 + 10) * 3.

(** A provider that differs from a given one in the addresses of its wallet
    only. *)
Definition withWallet {SplitTx SignedTx : Type} (wallet : string -> string)
           (this : Provider SplitTx SignedTx) : Provider SplitTx SignedTx :=
  {| _network := _network this;
     _segwit := _segwit this;
     getDerivationPathFromIndex := getDerivationPathFromIndex this;
     getWalletPublicKey := fun path _ _ => wallet path;
     splitTransaction := splitTransaction this;
     serializeTransactionOutputs := serializeTransactionOutputs this;
     createPaymentTransactionNew := createPaymentTransactionNew this;
     isUsedAddress := isUsedAddress this;
     getUnspentTransactions := getUnspentTransactions this;
     getTransactionHex := getTransactionHex this;
     base58_decode := base58_decode this;
     addressToPubKeyHash := addressToPubKeyHash this;
     pubKeyToAddress := pubKeyToAddress this |}.

(** A wallet of addresses of an unsupported type, whose first address holds
    the given coins. *)
Definition foreignWallet (coins : list UTXO.t) : Provider string (PaymentRequest string * string) :=
  withWallet (fun path => String "x" path)
    (Sample.provider Sample.neverUsed
       (fun address => if String.eqb address (String "x" (Sample.pathOf 0)) then coins else [])).

(** The value a list of outputs pays out, each amount field read as a
    little-endian integer. *)
Definition outputTotal (outs : list Output) : Z :=
  fold_right (fun o acc => Hex.leValue (amount o) + acc) 0 outs.

(** * Properties *)

Lemma Js_mul_NaN_r (a : number) : Js.mul a NaN = NaN.
Proof. destruct a; reflexivity. Qed.


(** C3 (as amended): on numeric arguments the fee is the linear cost model
    with the constants 148, 34 and 10; one input at 3 per byte costs 576 with
    one output and 678 with two. *)
Theorem calculateFee_formula :
  (forall numInputs numOutputs feePerByte : Z,
      calculateFee (Num numInputs) (Num numOutputs) (Num feePerByte)
      = Num ((numInputs * 148 + numOutputs * 34 + 10) * feePerByte))
  /\ calculateFee (Num 1) (Num 1) (Num 3) = Num 576
  /\ calculateFee (Num 1) (Num 2) (Num 3) = Num 678.
Proof.
  split; [intros; reflexivity | split; reflexivity].
Qed.

(** C3, counterexample: the fee of one input and two outputs at 3 per byte
    is not 888. *)
Lemma calculateFee_with_change_not_888 :
  calculateFee (Num 1) (Num 2) (Num 3) <> Num 888.
Proof.
  discriminate.
Qed.

(** C8: on counts and rates (non-negative integers) the fee is non-decreasing
    in each argument, and with positive counts it is strictly increasing in
    the rate. *)
Theorem calculateFee_monotone :
  forall n m f : Z,
    0 <= n -> 0 <= m -> 0 <= f ->
    (forall n', n <= n' ->
        Js.le (calculateFee (Num n) (Num m) (Num f)) (calculateFee (Num n') (Num m) (Num f)) = true)
    /\ (forall m', m <= m' ->
        Js.le (calculateFee (Num n) (Num m) (Num f)) (calculateFee (Num n) (Num m') (Num f)) = true)
    /\ (forall f', f <= f' ->
        Js.le (calculateFee (Num n) (Num m) (Num f)) (calculateFee (Num n) (Num m) (Num f')) = true)
    /\ (forall f', 0 < n -> 0 < m -> f < f' ->
        Js.lt (calculateFee (Num n) (Num m) (Num f)) (calculateFee (Num n) (Num m) (Num f')) = true).
Proof.
  intros n m f Hn Hm Hf.
  unfold calculateFee; cbn [Js.mul Js.add Js.le Js.lt].
  repeat split; intros.
  - apply Z.leb_le. nia.
  - apply Z.leb_le. nia.
  - apply Z.leb_le. nia.
  - apply Z.ltb_lt. nia.
Qed.

Lemma calculateFee_monotone_witness :
  Js.le (calculateFee (Num 1) (Num 1) (Num 3)) (calculateFee (Num 2) (Num 1) (Num 3)) = true
  /\ Js.lt (calculateFee (Num 1) (Num 1) (Num 3)) (calculateFee (Num 1) (Num 1) (Num 4)) = true.
Proof.
  destruct (calculateFee_monotone 1 1 3 ltac:(lia) ltac:(lia) ltac:(lia)) as (Hi & _ & _ & Hs).
  split; [apply (Hi 2); lia | apply (Hs 4); lia].
Defined.

Example getAmountBuffer_10000 :
  getAmountBuffer (Num 10000) = [16; 39; 0; 0; 0; 0; 0; 0].
Proof. reflexivity. Qed.

Example getAmountBuffer_0 :
  getAmountBuffer (Num 0) = [0; 0; 0; 0; 0; 0; 0; 0].
Proof. reflexivity. Qed.

(** ** Hexadecimal digits and little-endian buffers *)

Module HexFacts.
Import Hex.

Lemma hexVal_hexDigit (d : Z) : 0 <= d < 16 -> hexVal (hexDigit d) = Some d.
Proof.
  intros Hd.
  assert (Hcases : d = 0 \/ d = 1 \/ d = 2 \/ d = 3 \/ d = 4 \/ d = 5 \/ d = 6 \/ d = 7
                   \/ d = 8 \/ d = 9 \/ d = 10 \/ d = 11 \/ d = 12 \/ d = 13 \/ d = 14
                   \/ d = 15) by lia.
  repeat (destruct Hcases as [-> | Hcases]; [reflexivity |]).
  subst d; reflexivity.
Qed.

Lemma hexVal_range (c : ascii) (d : Z) : hexVal c = Some d -> 0 <= d < 16.
Proof.
  unfold hexVal.
  repeat match goal with
         | |- context [if ?b then _ else _] => destruct b eqn:?
         end; intros [= <-]; lia.
Qed.

Lemma digitVal_hexDigit (d : Z) : 0 <= d < 16 -> digitVal (hexDigit d) = d.
Proof. intros Hd; unfold digitVal; now rewrite hexVal_hexDigit. Qed.

Lemma length_pad (k : nat) (c : ascii) (s : string) :
  String.length (pad k c s) = (k + String.length s)%nat.
Proof. induction k as [| k IH]; simpl; [reflexivity | now rewrite IH]. Qed.

Lemma isHex_pad (k : nat) (c : ascii) (s : string) :
  hexVal c <> None -> isHex s -> isHex (pad k c s).
Proof. intros Hc Hs; induction k as [| k IH]; simpl; auto. Qed.

Lemma hexValue_pad_zero (k : nat) (s : string) :
  hexValue (pad k "0"%char s) = hexValue s.
Proof. induction k as [| k IH]; simpl; [reflexivity | now rewrite IH]. Qed.

Lemma hexDigits_isHex (fuel : nat) :
  forall n acc, 0 <= n -> isHex acc -> isHex (hexDigits fuel n acc).
Proof.
  induction fuel as [| fuel IH]; intros n acc Hn Hacc; simpl; [assumption |].
  destruct (n =? 0); [assumption |].
  apply IH.
  - apply Z.div_pos; lia.
  - simpl; split; [| assumption].
    rewrite hexVal_hexDigit; [discriminate |].
    apply Z.mod_pos_bound; lia.
Qed.

Lemma hexDigits_value (fuel : nat) :
  forall n acc,
    0 <= n < 16 ^ Z.of_nat fuel ->
    hexValue (hexDigits fuel n acc) = n * 16 ^ Z.of_nat (String.length acc) + hexValue acc.
Proof.
  induction fuel as [| fuel IH]; intros n acc Hn; simpl hexDigits.
  - change (16 ^ Z.of_nat 0) with 1 in Hn. replace n with 0 by lia. lia.
  - destruct (Z.eqb_spec n 0) as [-> | Hnz]; [lia |].
    rewrite IH.
    + cbn [hexValue String.length].
      rewrite digitVal_hexDigit by (apply Z.mod_pos_bound; lia).
      rewrite Nat2Z.inj_succ, Z.pow_succ_r by lia.
      pose proof (Z.div_mod n 16 ltac:(lia)) as Hdm.
      set (p := 16 ^ Z.of_nat (String.length acc)) in *.
      nia.
    + rewrite Nat2Z.inj_succ, Z.pow_succ_r in Hn by lia.
      split; [apply Z.div_pos; lia |].
      apply Z.div_lt_upper_bound; lia.
Qed.

Lemma hexDigits_length (fuel : nat) :
  forall (k : nat) n acc,
    0 <= n < 16 ^ Z.of_nat k ->
    (String.length (hexDigits fuel n acc) <= k + String.length acc)%nat.
Proof.
  induction fuel as [| fuel IH]; intros k n acc Hn; simpl hexDigits; [lia |].
  destruct (Z.eqb_spec n 0) as [-> | Hnz]; [lia |].
  destruct k as [| k].
  - change (16 ^ Z.of_nat 0) with 1 in Hn. lia.
  - rewrite Nat2Z.inj_succ, Z.pow_succ_r in Hn by lia.
    specialize (IH k (n / 16) (String (hexDigit (n mod 16)) acc)).
    cbn [String.length] in IH.
    assert (0 <= n / 16 < 16 ^ Z.of_nat k).
    { split; [apply Z.div_pos; lia | apply Z.div_lt_upper_bound; lia]. }
    specialize (IH ltac:(assumption)). lia.
Qed.

Lemma enough_fuel (n : Z) : 0 < n -> n < 16 ^ Z.of_nat (S (Z.to_nat (Z.log2 n))).
Proof.
  intros Hn.
  pose proof (Z.log2_spec n Hn) as [_ Hlt].
  pose proof (Z.log2_nonneg n) as Hl.
  rewrite Nat2Z.inj_succ, Z2Nat.id by assumption.
  eapply Z.lt_le_trans; [exact Hlt |].
  apply Z.pow_le_mono_l; lia.
Qed.

(** The printed form of an amount below 16^k: at most [k] digits, all
    hexadecimal, denoting the amount. *)
Lemma toString16_spec (k : nat) (n : Z) :
  (0 < k)%nat -> 0 <= n < 16 ^ Z.of_nat k ->
  isHex (toString16 (Num n))
  /\ hexValue (toString16 (Num n)) = n
  /\ (String.length (toString16 (Num n)) <= k)%nat.
Proof.
  intros Hk Hn. unfold toString16.
  destruct (Z.eqb_spec n 0) as [-> | Hnz].
  - simpl. repeat split; [discriminate | lia].
  - destruct (Z.ltb_spec n 0) as [Hneg | _]; [lia |].
    repeat split.
    + apply hexDigits_isHex; [lia | exact I].
    + rewrite hexDigits_value by (split; [lia | apply enough_fuel; lia]).
      simpl. lia.
    + pose proof (hexDigits_length (S (Z.to_nat (Z.log2 n))) k n "" Hn) as Hlen.
      cbn [String.length] in Hlen. now rewrite Nat.add_0_r in Hlen.
Qed.

Lemma leValue_snoc (b : Buffer) (x : Z) :
  leValue (b ++ [x]) = leValue b + 256 ^ Z.of_nat (List.length b) * x.
Proof.
  induction b as [| y b IH]; cbn [leValue app List.length].
  - change (256 ^ Z.of_nat 0) with 1. lia.
  - rewrite IH, Nat2Z.inj_succ, Z.pow_succ_r by lia. lia.
Qed.

(** Decoding [2 * m] hexadecimal digits gives [m] bytes whose reversal
    denotes, least significant byte first, the number the digits denote. *)
Lemma fromHex_spec (m : nat) :
  forall s,
    String.length s = (2 * m)%nat -> isHex s ->
    List.length (fromHex s) = m
    /\ Forall isByte (fromHex s)
    /\ leValue (rev (fromHex s)) = hexValue s.
Proof.
  induction m as [| m IH]; intros s Hlen Hs.
  - destruct s; [simpl; auto | discriminate].
  - destruct s as [| a [| b rest]]; try (simpl in Hlen; lia).
    cbn [String.length] in Hlen.
    destruct Hs as (Ha & Hb & Hrest).
    destruct (IH rest ltac:(lia) Hrest) as (Hl & Hby & Hv).
    cbn [fromHex hexValue String.length].
    unfold digitVal.
    destruct (hexVal a) as [x |] eqn:Ea; [| congruence].
    destruct (hexVal b) as [y |] eqn:Eb; [| congruence].
    apply hexVal_range in Ea, Eb.
    cbn [List.length rev].
    repeat split.
    + now rewrite Hl.
    + constructor; [unfold isByte; lia | assumption].
    + rewrite leValue_snoc, Hv, length_rev, Hl.
      assert (Hr : String.length rest = (2 * m)%nat) by lia.
      rewrite Hr, Nat2Z.inj_succ, Z.pow_succ_r by lia.
      replace (Z.of_nat (2 * m)) with (2 * Z.of_nat m) by lia.
      rewrite Z.pow_mul_r by lia.
      change (16 ^ 2) with 256. lia.
Qed.

(** The byte at position [i] of a little-endian buffer. *)
Lemma nth_leValue (b : Buffer) :
  Forall isByte b ->
  forall i : nat, (i < List.length b)%nat ->
    nth i b 0 = (leValue b / 256 ^ Z.of_nat i) mod 256.
Proof.
  induction 1 as [| x b Hx Hb IH]; intros i Hi; [simpl in Hi; lia |].
  unfold isByte in Hx.
  destruct i as [| i]; cbn [nth leValue].
  - change (256 ^ Z.of_nat 0) with 1. rewrite Z.div_1_r.
    replace (x + 256 * leValue b) with (x + leValue b * 256) by lia.
    rewrite Z.mod_add by lia.
    now rewrite Z.mod_small.
  - rewrite IH by (simpl in Hi; lia).
    rewrite Nat2Z.inj_succ, Z.pow_succ_r by lia.
    rewrite <- Z.div_div by lia.
    replace ((x + 256 * leValue b) / 256) with (leValue b); [reflexivity |].
    replace (x + 256 * leValue b) with (x + leValue b * 256) by lia.
    rewrite Z.div_add by lia.
    rewrite Z.div_small by lia. lia.
Qed.

End HexFacts.

(** ** getAmountBuffer *)

(** The string handed to [Buffer.from] for an amount below 2^64: sixteen
    hexadecimal digits denoting the amount. *)
Lemma padded_amount (a : Z) :
  0 <= a < 2 ^ 64 ->
  let hex := padHexStart (Hex.toString16 (Num a)) (Some 16%nat) in
  String.length hex = 16%nat /\ Hex.isHex hex /\ Hex.hexValue hex = a.
Proof.
  intros Ha hex.
  destruct (HexFacts.toString16_spec 16 a ltac:(lia) Ha) as (Hhex & Hval & Hlen).
  subst hex. unfold padHexStart, Hex.padStart.
  change (16 + 16 mod 2)%nat with 16%nat.
  repeat split.
  - rewrite HexFacts.length_pad. lia.
  - apply HexFacts.isHex_pad; [discriminate | assumption].
  - now rewrite HexFacts.hexValue_pad_zero.
Qed.

(** C10: below 2^64 the buffer has exactly eight bytes, it is the reversal of
    the decoded sixteen-digit zero-padded hexadecimal form of the amount, and
    it holds the amount least significant byte first. *)
Theorem getAmountBuffer_little_endian (a : Z) :
  0 <= a < 2 ^ 64 ->
  List.length (getAmountBuffer (Num a)) = 8%nat
  /\ Forall Hex.isByte (getAmountBuffer (Num a))
  /\ Hex.leValue (getAmountBuffer (Num a)) = a
  /\ (forall i : nat, (i < 8)%nat ->
        nth i (getAmountBuffer (Num a)) 0 = (a / 256 ^ Z.of_nat i) mod 256)
  /\ (exists hex : string,
        String.length hex = 16%nat /\ Hex.isHex hex /\ Hex.hexValue hex = a
        /\ getAmountBuffer (Num a) = rev (Hex.fromHex hex)).
Proof.
  intros Ha.
  destruct (padded_amount a Ha) as (Hlen & Hhex & Hval).
  destruct (HexFacts.fromHex_spec 8 _ Hlen Hhex) as (Hl & Hby & Hv).
  assert (Hbytes : Forall Hex.isByte (getAmountBuffer (Num a))).
  { unfold getAmountBuffer. now apply Forall_rev. }
  assert (Hsize : List.length (getAmountBuffer (Num a)) = 8%nat).
  { unfold getAmountBuffer. now rewrite length_rev. }
  assert (Hle : Hex.leValue (getAmountBuffer (Num a)) = a).
  { unfold getAmountBuffer. now rewrite Hv. }
  repeat split; try assumption.
  - intros i Hi.
    rewrite (HexFacts.nth_leValue _ Hbytes i) by lia.
    now rewrite Hle.
  - eexists; repeat split; eassumption.
Qed.

Lemma getAmountBuffer_little_endian_witness :
  List.length (getAmountBuffer (Num 10000)) = 8%nat
  /\ Hex.leValue (getAmountBuffer (Num 10000)) = 10000.
Proof.
  destruct (getAmountBuffer_little_endian 10000 ltac:(lia)) as (Hl & _ & Hv & _).
  split; assumption.
Defined.

(** ** The selector's loop *)

Section SelectorFacts.

Context {SplitTx SignedTx : Type}.
Variable this : Provider SplitTx SignedTx.
Variables (amount : Z) (feePerByte : number).

(** The fee of line 134 is computed without a rate, so the comparison of
    line 137 is false and the callback never switches to two outputs. *)
Lemma forEachBody_eq (utxosValue : Z) (address : Address.t) (st : Selection) (utxo : UTXO.t) :
  forEachBody amount feePerByte utxosValue address st utxo
  = {| currentAmount := currentAmount st + utxosValue;
       numOutputsOffset := numOutputsOffset st;
       utxosToUse := utxosToUse st
                     ++ [UTXO.setDerivationPath utxo (Address.derivationPath address)] |}.
Proof.
  unfold forEachBody, calculateFee, Js.undefined.
  rewrite Js_mul_NaN_r. cbn [Js.add Js.gt Js.lt].
  now rewrite Bool.andb_false_r.
Qed.

Lemma forEach_eq (utxosValue : Z) (address : Address.t) (utxos : list UTXO.t) :
  forall st,
    fold_left (forEachBody amount feePerByte utxosValue address) utxos st
    = {| currentAmount := currentAmount st + Z.of_nat (List.length utxos) * utxosValue;
         numOutputsOffset := numOutputsOffset st;
         utxosToUse :=
           utxosToUse st
           ++ map (fun u => UTXO.setDerivationPath u (Address.derivationPath address)) utxos |}.
Proof.
  induction utxos as [| u utxos IH]; intros st; cbn [fold_left map List.length].
  - destruct st; cbn. f_equal; [lia | now rewrite app_nil_r].
  - rewrite IH, forEachBody_eq. cbn [currentAmount numOutputsOffset utxosToUse].
    f_equal; [lia | now rewrite <- app_assoc].
Qed.

Lemma visitAddress_eq (i : Z) (st : Selection) :
  visitAddress this amount feePerByte i st
  = {| currentAmount :=
         currentAmount st
         + Z.of_nat (List.length (batchAt this i)) * sumValues (batchAt this i);
       numOutputsOffset := numOutputsOffset st;
       utxosToUse := utxosToUse st ++ taggedBatchAt this i |}.
Proof.
  unfold visitAddress. now rewrite forEach_eq.
Qed.

Lemma loop_done (fuel : nat) (i : Z) (st : Selection) :
  amount <= currentAmount st ->
  getUtxosForAmount_loop this amount feePerByte fuel i st = Ok (utxosToUse st).
Proof.
  intros Hge. destruct fuel; cbn [getUtxosForAmount_loop];
    destruct (Z.ltb_spec (currentAmount st) amount); (lia || reflexivity).
Qed.

Lemma loop_step (fuel : nat) (i : Z) (st : Selection) :
  currentAmount st < amount ->
  getUtxosForAmount_loop this amount feePerByte (S fuel) i st
  = getUtxosForAmount_loop this amount feePerByte fuel (i + 1)
      (visitAddress this amount feePerByte i st).
Proof.
  intros Hlt. cbn [getUtxosForAmount_loop].
  destruct (Z.ltb_spec (currentAmount st) amount); (lia || reflexivity).
Qed.

(** The loop stops at the first address count [n] at which the running
    total reaches the target, with the UTXOs of those [n] addresses. *)
Lemma loop_returns (n : nat) :
  forall (fuel : nat) (i : Z) (st : Selection),
    (n <= fuel)%nat ->
    amount <= currentAmount st + collectedFrom this i n ->
    (forall k : nat, (k < n)%nat -> currentAmount st + collectedFrom this i k < amount) ->
    getUtxosForAmount_loop this amount feePerByte fuel i st
    = Ok (utxosToUse st ++ gatheredFrom this i n).
Proof.
  induction n as [| n IH]; intros fuel i st Hfuel Hreach Hfirst.
  - cbn [collectedFrom gatheredFrom] in *.
    rewrite loop_done by lia. now rewrite app_nil_r.
  - destruct fuel as [| fuel]; [lia |].
    pose proof (Hfirst 0%nat ltac:(lia)) as H0. cbn [collectedFrom] in H0.
    rewrite loop_step by lia.
    rewrite (IH fuel (i + 1)); rewrite ?visitAddress_eq;
      cbn [currentAmount utxosToUse collectedFrom gatheredFrom] in *.
    + now rewrite <- app_assoc.
    + lia.
    + lia.
    + intros k Hk. specialize (Hfirst (S k) ltac:(lia)).
      cbn [collectedFrom] in Hfirst. lia.
Qed.

(** While no address count brings the running total to the target, the
    loop is still running, whatever the fuel. *)
Lemma loop_runs_on (fuel : nat) :
  forall (i : Z) (st : Selection),
    (forall n : nat, currentAmount st + collectedFrom this i n < amount) ->
    getUtxosForAmount_loop this amount feePerByte fuel i st = Timeout.
Proof.
  induction fuel as [| fuel IH]; intros i st Hshort;
    pose proof (Hshort 0%nat) as H0; cbn [collectedFrom] in H0.
  - cbn [getUtxosForAmount_loop].
    destruct (Z.ltb_spec (currentAmount st) amount); (lia || reflexivity).
  - rewrite loop_step by lia. apply IH.
    intros n. rewrite visitAddress_eq. cbn [currentAmount].
    specialize (Hshort (S n)). cbn [collectedFrom] in Hshort. lia.
Qed.

Lemma scanFrom_eq (n : nat) :
  forall (i : Z) (st : Selection),
    currentAmount (scanFrom this amount feePerByte i st n)
    = currentAmount st + collectedFrom this i n
    /\ utxosToUse (scanFrom this amount feePerByte i st n)
       = utxosToUse st ++ gatheredFrom this i n.
Proof.
  induction n as [| n IH]; intros i st; cbn [scanFrom collectedFrom gatheredFrom].
  - split; [lia | now rewrite app_nil_r].
  - destruct (IH (i + 1) (visitAddress this amount feePerByte i st)) as [Hc Hu].
    rewrite Hc, Hu, visitAddress_eq. cbn [currentAmount utxosToUse].
    split; [lia | now rewrite <- app_assoc].
Qed.

Lemma loop_never_throws (fuel : nat) :
  forall (i : Z) (st : Selection) (message : string),
    getUtxosForAmount_loop this amount feePerByte fuel i st <> Throw message.
Proof.
  induction fuel as [| fuel IH]; intros i st message; cbn [getUtxosForAmount_loop];
    destruct (currentAmount st <? amount); try discriminate.
  apply IH.
Qed.

End SelectorFacts.

(** ** getUtxosForAmount *)

(** C9: while an address is visited, every UTXO of its batch adds the value
    of the whole batch to the running total, so a batch of [k] UTXOs worth
    [V] together adds [k * V]. *)
Theorem selector_adds_batch_total_per_utxo :
  forall {SplitTx SignedTx : Type} (this : Provider SplitTx SignedTx)
         (amount : Z) (feePerByte : number) (i : Z) (st : Selection),
    let V := sumValues (batchAt this i) in
    let k := Z.of_nat (List.length (batchAt this i)) in
    (forall (st' : Selection) (utxo : UTXO.t),
        currentAmount (forEachBody amount feePerByte V (addressAt this i) st' utxo)
        = currentAmount st' + V)
    /\ currentAmount (visitAddress this amount feePerByte i st) = currentAmount st + k * V.
Proof.
  intros SplitTx SignedTx this amount feePerByte i st V k. split.
  - intros st' utxo. now rewrite forEachBody_eq.
  - now rewrite visitAddress_eq.
Qed.

(** Two coins of 3000 at one address raise the running total by 12000. *)
Example two_coins_counted_twice :
  currentAmount
    (visitAddress
       (Sample.provider Sample.neverUsed
          (Sample.unspentAtFirst [Sample.coin "aa" 3000; Sample.coin "bb" 3000]))
       10000 (Num 3) 0
       {| currentAmount := 0; numOutputsOffset := 0; utxosToUse := [] |})
  = 12000.
Proof. reflexivity. Qed.

(** C1: with a single coin of 10000 at the first address and a target of
    10000 at 3 per byte, the selector returns that coin alone, which is less
    than the target plus the fee of one input and one output. *)
Theorem selection_below_target_plus_fee :
  exists selected : list UTXO.t,
    getUtxosForAmount
      (Sample.provider Sample.neverUsed (Sample.unspentAtFirst [Sample.coin "aa" 10000]))
      1 10000 (Some (Num 3)) = Ok selected
    /\ List.length selected = 1%nat
    /\ sumValues selected = 10000
    /\ calculateFee (Num (Z.of_nat (List.length selected))) (Num 1) (Num 3) = Num 576
    /\ Js.lt (Num (sumValues selected))
             (Js.add (Num 10000)
                     (calculateFee (Num (Z.of_nat (List.length selected))) (Num 1) (Num 3)))
       = true.
Proof.
  eexists. split; [reflexivity |]. repeat split.
Qed.

(** With two coins of 3000 the returned set is even below the target. *)
Example selection_below_target :
  exists selected : list UTXO.t,
    getUtxosForAmount
      (Sample.provider Sample.neverUsed
         (Sample.unspentAtFirst [Sample.coin "aa" 3000; Sample.coin "bb" 3000]))
      1 10000 (Some (Num 3)) = Ok selected
    /\ sumValues selected = 6000.
Proof.
  eexists. split; reflexivity.
Qed.

Lemma collectedFrom_noCoins (used : string -> bool) (n : nat) :
  forall i : Z, collectedFrom (Sample.provider used Sample.noCoins) i n = 0.
Proof.
  induction n as [| n IH]; intros i; cbn [collectedFrom]; [reflexivity |].
  now rewrite IH.
Qed.

(** C2, counterexample: on a wallet without coins and a target of 10000 the
    selector neither returns nor fails, whatever the number of addresses it
    is allowed to visit. *)
Lemma scan_of_empty_wallet_never_ends :
  ~ (exists fuel : nat,
        getUtxosForAmount (Sample.provider Sample.neverUsed Sample.noCoins)
                          fuel 10000 (Some (Num 3)) <> Timeout).
Proof.
  intros [fuel Hends]. apply Hends.
  unfold getUtxosForAmount. apply loop_runs_on.
  intros n. rewrite collectedFrom_noCoins. cbn. lia.
Qed.

(** C2 (as amended): the scan visits the addresses 0, 1, 2, ... without a
    bound and without a failure result.  It returns as soon as its running
    total, after some number of addresses, has reached the target, with the
    UTXOs gathered so far; while the running total stays below the target it
    keeps scanning; and it never throws. *)
Theorem getUtxosForAmount_scan :
  forall {SplitTx SignedTx : Type} (this : Provider SplitTx SignedTx)
         (amount : Z) (feePerByte : option number),
    (forall n : nat,
        amount <= currentAmount (scanned this amount feePerByte n) ->
        (forall k : nat, (k < n)%nat ->
                         currentAmount (scanned this amount feePerByte k) < amount) ->
        forall fuel : nat, (n <= fuel)%nat ->
          getUtxosForAmount this fuel amount feePerByte
          = Ok (utxosToUse (scanned this amount feePerByte n)))
    /\ ((forall n : nat, currentAmount (scanned this amount feePerByte n) < amount) ->
        forall fuel : nat, getUtxosForAmount this fuel amount feePerByte = Timeout)
    /\ (forall (fuel : nat) (message : string),
           getUtxosForAmount this fuel amount feePerByte <> Throw message).
Proof.
  intros SplitTx SignedTx this amount feePerByte. unfold getUtxosForAmount, scanned.
  set (rate := match feePerByte with Some f => f | None => Num 3 end).
  set (start := {| currentAmount := 0; numOutputsOffset := 0; utxosToUse := [] |}).
  repeat split.
  - intros n Hreach Hfirst fuel Hfuel.
    destruct (scanFrom_eq this amount rate n 0 start) as [Hc Hu].
    rewrite Hu, (loop_returns this amount rate n fuel 0 start Hfuel); [reflexivity | lia |].
    intros k Hk. specialize (Hfirst k Hk).
    destruct (scanFrom_eq this amount rate k 0 start) as [Hck _]. lia.
  - intros Hshort fuel. apply loop_runs_on.
    intros n. specialize (Hshort n).
    destruct (scanFrom_eq this amount rate n 0 start) as [Hc _]. lia.
  - intros fuel message. apply loop_never_throws.
Qed.

Lemma getUtxosForAmount_scan_witness :
  let this := Sample.provider Sample.neverUsed
                (Sample.unspentAtFirst [Sample.coin "aa" 15000]) in
  let empty := Sample.provider Sample.neverUsed Sample.noCoins in
  getUtxosForAmount this 1 10000 (Some (Num 3))
  = Ok (utxosToUse (scanned this 10000 (Some (Num 3)) 1))
  /\ (forall fuel : nat, getUtxosForAmount empty fuel 10000 (Some (Num 3)) = Timeout).
Proof.
  intros this empty. split.
  - apply (proj1 (getUtxosForAmount_scan this 10000 (Some (Num 3))) 1%nat).
    + vm_compute. discriminate.
    + intros k Hk. replace k with 0%nat by lia. reflexivity.
    + lia.
  - apply (proj1 (proj2 (getUtxosForAmount_scan empty 10000 (Some (Num 3))))).
    intros n. unfold scanned, empty.
    rewrite (proj1 (scanFrom_eq _ 10000 (Num 3) n 0 _)), collectedFrom_noCoins.
    reflexivity.
Defined.

(** ** getUnusedAddress *)

Section UnusedAddressFacts.

Context {SplitTx SignedTx : Type}.
Variable this : Provider SplitTx SignedTx.

Lemma unused_loop_found (fuel : nat) (i : Z) :
  usedAt this i = false -> getUnusedAddress_loop this (S fuel) i = Ok (addressAt this i).
Proof.
  unfold usedAt, addressAt. intros Hfree. cbn [getUnusedAddress_loop].
  now rewrite Hfree.
Qed.

(** A used candidate is asked about again and again. *)
Lemma unused_loop_stuck (fuel : nat) (i : Z) :
  usedAt this i = true -> getUnusedAddress_loop this fuel i = Timeout.
Proof.
  unfold usedAt, addressAt. intros Hused.
  induction fuel as [| fuel IH]; cbn [getUnusedAddress_loop]; [reflexivity |].
  now rewrite Hused.
Qed.

Lemma unused_loop_sound (fuel : nat) (i : Z) (a : Address.t) :
  getUnusedAddress_loop this fuel i = Ok a ->
  isUsedAddress this (Address.address a) = false.
Proof.
  induction fuel as [| fuel IH]; cbn [getUnusedAddress_loop]; [discriminate |].
  destruct (usedAt this i) eqn:Hused; unfold usedAt, addressAt in Hused;
    rewrite Hused; cbn [negb]; [exact IH |].
  now intros [= <-].
Qed.

Lemma unused_loop_never_throws (fuel : nat) (i : Z) (message : string) :
  getUnusedAddress_loop this fuel i <> Throw message.
Proof.
  induction fuel as [| fuel IH]; cbn [getUnusedAddress_loop]; [discriminate |].
  destruct (isUsedAddress this _); cbn [negb]; [exact IH | discriminate].
Qed.

End UnusedAddressFacts.


(** The index is not advanced: with only the first address used, the second
    one is never asked about and the search does not return. *)
Example search_stays_at_start_index :
  usedAt (Sample.provider Sample.onlyFirstUsed Sample.noCoins) 1 = false
  /\ forall fuel : nat,
      getUnusedAddress (Sample.provider Sample.onlyFirstUsed Sample.noCoins) fuel None
      = Timeout.
Proof.
  split; [reflexivity |].
  intros fuel. unfold getUnusedAddress. now apply unused_loop_stuck.
Qed.



(** ** generateScript *)

Section ScriptFacts.

Context {SplitTx SignedTx : Type}.
Variable this : Provider SplitTx SignedTx.

(** The type of an address is read off the first decoded byte alone. *)
Lemma addressType_version_byte (address : string) :
  addressType this address
  = match base58_decode this address with
    | [] => ""
    | version :: _ =>
        String (Hex.upper (Hex.hexDigit (version / 16)))
               (String (Hex.upper (Hex.hexDigit (version mod 16))) "")
    end.
Proof.
  unfold addressType.
  destruct (base58_decode this address) as [| version rest]; [reflexivity |].
  cbn [Hex.toHex substring Hex.toUpperCase].
  now destruct (Hex.toHex rest).
Qed.

End ScriptFacts.

(** C5: on a network whose two version bytes differ, the script is chosen by
    the address's decoded version byte alone: the pay-to-pubkey-hash byte
    gives the P2PKH script, the pay-to-script-hash byte gives the P2SH script,
    and any other byte makes the call throw. *)
Theorem generateScript_by_version_byte :
  forall {SplitTx SignedTx : Type} (this : Provider SplitTx SignedTx) (address : string),
    pubKeyHash (_network this) <> scriptHash (_network this) ->
    let hash := addressToPubKeyHash this address in
    (addressType this address = pubKeyHash (_network this) ->
     generateScript this address = Ok ("76a914" ++ hash ++ "88ac")%string)
    /\ (addressType this address = scriptHash (_network this) ->
        generateScript this address = Ok ("a914" ++ hash ++ "87")%string)
    /\ (addressType this address <> pubKeyHash (_network this) ->
        addressType this address <> scriptHash (_network this) ->
        generateScript this address = Throw "Not a valid address:")
    /\ (forall other : string,
           hd_error (base58_decode this other) = hd_error (base58_decode this address) ->
           addressType this other = addressType this address).
Proof.
  intros SplitTx SignedTx this address Hdiff hash. unfold generateScript.
  repeat split.
  - intros Htype. rewrite Htype, String.eqb_refl. reflexivity.
  - intros Htype. rewrite Htype.
    destruct (String.eqb_spec (scriptHash (_network this)) (pubKeyHash (_network this)))
      as [Heq | _]; [now symmetry in Heq |].
    rewrite String.eqb_refl. reflexivity.
  - intros Hp Hs.
    destruct (String.eqb_spec (addressType this address) (pubKeyHash (_network this)));
      [contradiction |].
    destruct (String.eqb_spec (addressType this address) (scriptHash (_network this)));
      [contradiction | reflexivity].
  - intros other Hhead. rewrite !addressType_version_byte.
    destruct (base58_decode this other), (base58_decode this address);
      cbn [hd_error] in Hhead; try discriminate; [reflexivity |].
    now injection Hhead as ->.
Qed.

Lemma generateScript_by_version_byte_witness :
  let this := Sample.provider Sample.neverUsed Sample.noCoins in
  generateScript this "1BoatSLRHtKNngkdXEeobR76b53LETtpyT"
  = Ok "76a914000102030405060708090a0b0c0d0e0f1011121388ac"
  /\ generateScript this "3J98t1WpEZ73CNmQviecrnyiWrnqRhWNLy"
     = Ok "a914000102030405060708090a0b0c0d0e0f1011121387"
  /\ generateScript this "mipcBbFg9gMiCh81Kj8tqqdgoZub1ZJRfn"
     = Throw "Not a valid address:".
Proof.
  intros this.
  assert (Hdiff : pubKeyHash (_network this) <> scriptHash (_network this))
    by discriminate.
  split; [| split].
  - apply (proj1 (generateScript_by_version_byte
                    this "1BoatSLRHtKNngkdXEeobR76b53LETtpyT" Hdiff)).
    reflexivity.
  - apply (proj1 (proj2 (generateScript_by_version_byte
                           this "3J98t1WpEZ73CNmQviecrnyiWrnqRhWNLy" Hdiff))).
    reflexivity.
  - apply (proj1 (proj2 (proj2 (generateScript_by_version_byte
                                  this "mipcBbFg9gMiCh81Kj8tqqdgoZub1ZJRfn" Hdiff)))).
    + discriminate.
    + discriminate.
Defined.

(** ** createSignedTransaction *)

Section PaymentFacts.

Context {SplitTx SignedTx : Type}.
Variable this : Provider SplitTx SignedTx.

(** The cost of lines 172-182 in closed form. *)
Lemma totalCostOf_eq (value : Z) (utxos : list UTXO.t) :
  let n := Z.of_nat (List.length utxos) in
  totalCostOf value utxos
  = if value + (n * 148 + 1 * 34 + 10) * 3 <? sumValues utxos
    then (Num (value + (n * 148 + 2 * 34 + 10) * 3), true)
    else (Num (value + (n * 148 + 1 * 34 + 10) * 3), false).
Proof.
  intros n. unfold totalCostOf, calculateFee. fold n.
  cbn [Js.mul Js.add Js.sub Js.gt Js.lt].
  destruct (_ <? sumValues utxos); [| reflexivity].
  do 2 f_equal. lia.
Qed.

(** The cost is the send value plus the fee of the selected inputs and of
    the outputs used: two with a change output, one without. *)
Lemma totalCostOf_fee (value : Z) (utxos : list UTXO.t) :
  fst (totalCostOf value utxos)
  = Js.add (Num value)
           (calculateFee (Num (Z.of_nat (List.length utxos)))
                         (Num (if snd (totalCostOf value utxos) then 2 else 1))
                         (Num 3)).
Proof.
  rewrite totalCostOf_eq. cbv zeta.
  destruct (_ <? sumValues utxos); reflexivity.
Qed.

(** [paymentRequest] once the unused address and the selection are known. *)
Lemma paymentRequest_after_selection
      (fuel : nat) (to : string) (value : Z) (data : option string) (from : option From)
      (unusedAddress : Address.t) (utxos : list UTXO.t) :
  getUnusedAddress this fuel from = Ok unusedAddress ->
  getUtxosForAmount this fuel value None = Ok utxos ->
  paymentRequest this fuel to value data from
  = let totalAmount := sumValues utxos in
    let '(totalCost, hasChange) := totalCostOf value utxos in
    if Js.lt (Num totalAmount) totalCost then Throw "Not enough balance"
    else
      sendScript <- generateScript this (recipientAddress this to data) ;;
      let recipient := {| amount := getAmountBuffer (Num value);
                          script := Hex.fromHex sendScript |} in
      outputs <- (if hasChange then
                    changeScript <- generateScript this (Address.address unusedAddress) ;;
                    Ok ([recipient]
                          ++ [ {| amount := getAmountBuffer
                                              (Js.sub (Num totalAmount) totalCost);
                                  script := Hex.fromHex changeScript |} ])
                  else Ok [recipient]) ;;
      Ok {| ledgerInputs := getLedgerInputs this utxos;
            paths := map UTXO.derivationPath utxos;
            changePath := Address.derivationPath unusedAddress;
            outputs := outputs |}.
Proof.
  intros Hunused Hselected. unfold paymentRequest.
  rewrite Hunused, Hselected. reflexivity.
Qed.

Lemma paymentRequest_Ok_inv
      (fuel : nat) (to : string) (value : Z) (data : option string) (from : option From)
      (request : PaymentRequest SplitTx) :
  paymentRequest this fuel to value data from = Ok request ->
  exists (unusedAddress : Address.t) (utxos : list UTXO.t),
    getUnusedAddress this fuel from = Ok unusedAddress
    /\ getUtxosForAmount this fuel value None = Ok utxos.
Proof.
  unfold paymentRequest.
  destruct (getUnusedAddress this fuel from) as [unusedAddress | |];
    cbn [bind]; try discriminate.
  destruct (getUtxosForAmount this fuel value None) as [utxos | |];
    cbn [bind]; try discriminate.
  intros _. now exists unusedAddress, utxos.
Qed.

End PaymentFacts.






(** * Further properties of the provider *)

(** ** calculateFee *)

(** X1: the fee is a number exactly when all three arguments are; an omitted
    [feePerByte] therefore gives [NaN] whatever the counts. *)
Theorem calculateFee_NaN_iff :
  forall numInputs numOutputs feePerByte : number,
    (calculateFee numInputs numOutputs feePerByte = NaN
     <-> numInputs = NaN \/ numOutputs = NaN \/ feePerByte = NaN)
    /\ calculateFee numInputs numOutputs Js.undefined = NaN.
Proof.
  intros [n |] [m |] [f |]; cbn; split; try reflexivity;
    (split; [intros H; try discriminate H; tauto
            | intros [H | [H | H]]; try discriminate H; reflexivity]).
Qed.

(** ** getUtxosForAmount: what a returned selection is *)

Section SelectionFacts.

Context {SplitTx SignedTx : Type}.
Variable this : Provider SplitTx SignedTx.

Lemma loop_rate_irrelevant (amount : Z) (f1 f2 : number) (fuel : nat) :
  forall (i : Z) (st : Selection),
    getUtxosForAmount_loop this amount f1 fuel i st
    = getUtxosForAmount_loop this amount f2 fuel i st.
Proof.
  induction fuel as [| fuel IH]; intros i st; cbn [getUtxosForAmount_loop];
    [reflexivity |].
  destruct (currentAmount st <? amount); [| reflexivity].
  rewrite (visitAddress_eq this amount f1), (visitAddress_eq this amount f2).
  apply IH.
Qed.

Lemma scanFrom_offset (amount : Z) (feePerByte : number) (n : nat) :
  forall (i : Z) (st : Selection),
    numOutputsOffset (scanFrom this amount feePerByte i st n) = numOutputsOffset st.
Proof.
  induction n as [| n IH]; intros i st; cbn [scanFrom]; [reflexivity |].
  rewrite IH, visitAddress_eq. reflexivity.
Qed.

(** A returned selection, read backwards: the number of addresses visited and
    what the running total was before and after the last of them. *)
Lemma loop_Ok_inv (amount : Z) (feePerByte : number) (fuel : nat) :
  forall (i : Z) (st : Selection) (selected : list UTXO.t),
    getUtxosForAmount_loop this amount feePerByte fuel i st = Ok selected ->
    exists n : nat,
      (n <= fuel)%nat
      /\ selected = utxosToUse st ++ gatheredFrom this i n
      /\ amount <= currentAmount st + collectedFrom this i n
      /\ (forall k : nat, (k < n)%nat -> currentAmount st + collectedFrom this i k < amount).
Proof.
  induction fuel as [| fuel IH]; intros i st selected; cbn [getUtxosForAmount_loop];
    destruct (Z.ltb_spec (currentAmount st) amount) as [Hlt | Hge]; try discriminate.
  - intros [= <-]. exists 0%nat. cbn [gatheredFrom collectedFrom].
    rewrite app_nil_r. repeat split; [lia | lia | intros k Hk; lia].
  - intros Hrun. destruct (IH _ _ _ Hrun) as (n & Hn & Hsel & Hreach & Hfirst).
    rewrite visitAddress_eq in Hsel, Hreach. cbn [currentAmount utxosToUse] in Hsel, Hreach.
    exists (S n). cbn [gatheredFrom collectedFrom].
    repeat split; [lia | now rewrite Hsel, <- app_assoc | lia |].
    intros [| k] Hk; cbn [collectedFrom]; [lia |].
    specialize (Hfirst k ltac:(lia)).
    rewrite visitAddress_eq in Hfirst. cbn [currentAmount] in Hfirst. lia.
  - intros [= <-]. exists 0%nat. cbn [gatheredFrom collectedFrom].
    rewrite app_nil_r. repeat split; [lia | lia | intros k Hk; lia].
Qed.

Lemma sumValues_acc (utxos : list UTXO.t) :
  forall acc : Z,
    fold_left (fun a utxo => a + UTXO.value utxo) utxos acc = acc + sumValues utxos.
Proof.
  unfold sumValues. induction utxos as [| u utxos IH]; intros acc; cbn [fold_left]; [lia |].
  rewrite IH, (IH (0 + UTXO.value u)). lia.
Qed.

Lemma sumValues_app (a b : list UTXO.t) : sumValues (a ++ b) = sumValues a + sumValues b.
Proof.
  unfold sumValues at 1. rewrite fold_left_app. fold (sumValues a).
  now rewrite sumValues_acc.
Qed.

Lemma sumValues_tagged (i : Z) : sumValues (taggedBatchAt this i) = sumValues (batchAt this i).
Proof.
  unfold taggedBatchAt. generalize (batchAt this i) as utxos.
  induction utxos as [| u utxos IH]; [reflexivity |].
  cbn [map]. change (u :: utxos) with ([u] ++ utxos).
  change (?x :: map ?f utxos) with ([x] ++ map f utxos).
  now rewrite !sumValues_app, IH.
Qed.

Lemma gathered_one_per_address (n : nat) :
  (forall j : Z, (List.length (batchAt this j) <= 1)%nat) ->
  forall i : Z, sumValues (gatheredFrom this i n) = collectedFrom this i n.
Proof.
  intros Hone. induction n as [| n IH]; intros i; cbn [gatheredFrom collectedFrom];
    [reflexivity |].
  rewrite sumValues_app, sumValues_tagged, IH.
  specialize (Hone i).
  destruct (batchAt this i) as [| u [| v rest]]; cbn [List.length] in *; try lia.
  reflexivity.
Qed.

Lemma gathered_nil_collected (n : nat) :
  forall i : Z, gatheredFrom this i n = [] -> collectedFrom this i n = 0.
Proof.
  induction n as [| n IH]; intros i; cbn [gatheredFrom collectedFrom]; [reflexivity |].
  intros Hnil. apply app_eq_nil in Hnil as [Hbatch Hrest].
  rewrite (IH _ Hrest). unfold taggedBatchAt in Hbatch.
  apply map_eq_nil in Hbatch. rewrite Hbatch. reflexivity.
Qed.

Lemma gathered_paths (n : nat) :
  forall i : Z,
    Forall (fun utxo => exists path, UTXO.derivationPath utxo = Some path)
           (gatheredFrom this i n).
Proof.
  induction n as [| n IH]; intros i; cbn [gatheredFrom]; [constructor |].
  apply Forall_app. split; [| apply IH].
  unfold taggedBatchAt. apply Forall_map, Forall_forall.
  intros u _. now eexists.
Qed.

End SelectionFacts.

(** X2: the selector takes no account of the fee.  Its switch to two outputs
    never fires, the offset staying 0 however many addresses are visited, and
    its outcome is the same at every fee rate. *)
Theorem getUtxosForAmount_ignores_fee :
  forall {SplitTx SignedTx : Type} (this : Provider SplitTx SignedTx)
         (amount : Z) (feePerByte otherRate : option number),
    (forall n : nat, numOutputsOffset (scanned this amount feePerByte n) = 0)
    /\ (forall fuel : nat,
           getUtxosForAmount this fuel amount feePerByte
           = getUtxosForAmount this fuel amount otherRate).
Proof.
  intros SplitTx SignedTx this amount feePerByte otherRate. split.
  - intros n. unfold scanned. now rewrite scanFrom_offset.
  - intros fuel. unfold getUtxosForAmount. apply loop_rate_irrelevant.
Qed.

(** X3: a returned selection consists of whole batches: it is the UTXOs of
    the addresses 0 to n-1 for some n, in address order and in the node's
    order within an address, each carrying the derivation path of its
    address; n is the least number of addresses at which the running total
    reaches the target. *)
Theorem getUtxosForAmount_returns_whole_batches :
  forall {SplitTx SignedTx : Type} (this : Provider SplitTx SignedTx)
         (fuel : nat) (amount : Z) (feePerByte : option number) (selected : list UTXO.t),
    getUtxosForAmount this fuel amount feePerByte = Ok selected ->
    exists n : nat,
      (n <= fuel)%nat
      /\ selected = gatheredFrom this 0 n
      /\ selected = utxosToUse (scanned this amount feePerByte n)
      /\ amount <= currentAmount (scanned this amount feePerByte n)
      /\ (forall k : nat, (k < n)%nat ->
                          currentAmount (scanned this amount feePerByte k) < amount)
      /\ Forall (fun utxo => exists path, UTXO.derivationPath utxo = Some path) selected.
Proof.
  intros SplitTx SignedTx this fuel amount feePerByte selected Hrun.
  unfold getUtxosForAmount in Hrun.
  apply loop_Ok_inv in Hrun as (n & Hn & Hsel & Hreach & Hfirst).
  cbn [currentAmount utxosToUse app] in Hsel, Hreach, Hfirst.
  exists n. unfold scanned.
  set (rate := match feePerByte with Some f => f | None => Num 3 end).
  set (start := {| currentAmount := 0; numOutputsOffset := 0; utxosToUse := [] |}).
  destruct (scanFrom_eq this amount rate n 0 start) as [Hc Hu].
  repeat split; try assumption.
  - now rewrite Hu.
  - rewrite Hc. exact Hreach.
  - intros k Hk. rewrite (proj1 (scanFrom_eq this amount rate k 0 start)).
    now apply Hfirst.
  - rewrite Hsel. apply gathered_paths.
Qed.

Lemma getUtxosForAmount_returns_whole_batches_witness :
  let this := Sample.provider Sample.neverUsed
                (Sample.unspentAtFirst [Sample.coin "aa" 3000; Sample.coin "bb" 3000]) in
  exists n : nat,
    (n <= 1)%nat
    /\ [UTXO.setDerivationPath (Sample.coin "aa" 3000) (Sample.pathOf 0);
        UTXO.setDerivationPath (Sample.coin "bb" 3000) (Sample.pathOf 0)]
       = gatheredFrom this 0 n.
Proof.
  intros this.
  destruct (getUtxosForAmount_returns_whole_batches this 1 10000 (Some (Num 3)) _ eq_refl)
    as (n & Hn & Hsel & _).
  exists n. split; [exact Hn | exact Hsel].
Defined.

(** X4: a target that is not positive is met without asking the node, with
    the empty selection; a positive target never yields the empty
    selection. *)
Theorem getUtxosForAmount_empty_iff :
  forall {SplitTx SignedTx : Type} (this : Provider SplitTx SignedTx)
         (amount : Z) (feePerByte : option number),
    (amount <= 0 -> forall fuel : nat, getUtxosForAmount this fuel amount feePerByte = Ok [])
    /\ (forall fuel : nat, getUtxosForAmount this fuel amount feePerByte = Ok [] -> amount <= 0).
Proof.
  intros SplitTx SignedTx this amount feePerByte. split.
  - intros Hamount fuel. unfold getUtxosForAmount.
    now rewrite loop_done by (cbn; lia).
  - intros fuel Hrun. unfold getUtxosForAmount in Hrun.
    apply loop_Ok_inv in Hrun as (n & _ & Hsel & Hreach & _).
    cbn [currentAmount utxosToUse app] in Hsel, Hreach.
    symmetry in Hsel. apply gathered_nil_collected in Hsel. lia.
Qed.

Lemma getUtxosForAmount_empty_iff_witness :
  getUtxosForAmount (Sample.provider Sample.neverUsed Sample.noCoins) 0 0 None = Ok [].
Proof.
  apply (proj1 (getUtxosForAmount_empty_iff
                  (Sample.provider Sample.neverUsed Sample.noCoins) 0 None)).
  lia.
Defined.

(** X5: on a wallet where no address holds more than one UTXO, a returned
    selection is worth at least the target (the fee is not counted). *)
Theorem getUtxosForAmount_covers_target_one_per_address :
  forall {SplitTx SignedTx : Type} (this : Provider SplitTx SignedTx)
         (fuel : nat) (amount : Z) (feePerByte : option number) (selected : list UTXO.t),
    (forall i : Z, (List.length (batchAt this i) <= 1)%nat) ->
    getUtxosForAmount this fuel amount feePerByte = Ok selected ->
    amount <= sumValues selected.
Proof.
  intros SplitTx SignedTx this fuel amount feePerByte selected Hone Hrun.
  unfold getUtxosForAmount in Hrun.
  apply loop_Ok_inv in Hrun as (n & _ & Hsel & Hreach & _).
  cbn [currentAmount utxosToUse app] in Hsel, Hreach.
  rewrite Hsel, gathered_one_per_address by assumption. lia.
Qed.

Lemma getUtxosForAmount_covers_target_one_per_address_witness :
  let this := Sample.provider Sample.neverUsed
                (Sample.unspentAtFirst [Sample.coin "aa" 15000]) in
  10000 <= sumValues [UTXO.setDerivationPath (Sample.coin "aa" 15000) (Sample.pathOf 0)].
Proof.
  intros this.
  apply (getUtxosForAmount_covers_target_one_per_address this 1 10000 None).
  - intros i. unfold batchAt, addressAt, getAddressFromDerivationPath.
    cbn [this Sample.provider getUnspentTransactions Address.address].
    unfold Sample.unspentAtFirst.
    destruct (String.eqb _ _); cbn [List.length]; lia.
  - reflexivity.
Defined.

(** ** getUnusedAddress: what it can return *)

Lemma unused_loop_Ok_inv {SplitTx SignedTx : Type} (this : Provider SplitTx SignedTx)
      (fuel : nat) (i : Z) (a : Address.t) :
  getUnusedAddress_loop this fuel i = Ok a ->
  a = addressAt this i /\ usedAt this i = false.
Proof.
  induction fuel as [| fuel IH]; cbn [getUnusedAddress_loop]; [discriminate |].
  destruct (usedAt this i) eqn:Hused; unfold usedAt, addressAt in Hused |- *;
    rewrite Hused; cbn [negb]; [exact IH |].
  intros [= <-]. now split.
Qed.


(** ** generateScript: the bytes of the script *)

Module HexCodec.
Import Hex.

Lemma length_toHex (b : Buffer) : String.length (toHex b) = (2 * List.length b)%nat.
Proof.
  induction b as [| x b IH]; cbn [toHex String.length List.length]; [reflexivity |].
  rewrite IH. lia.
Qed.

Lemma isHex_toHex (b : Buffer) : Forall isByte b -> isHex (toHex b).
Proof.
  induction 1 as [| x b Hx Hb IH]; cbn [toHex isHex]; [exact I |].
  unfold isByte in Hx.
  assert (Hhi : 0 <= x / 16 < 16)
    by (split; [apply Z.div_pos; lia | apply Z.div_lt_upper_bound; lia]).
  assert (Hlo : 0 <= x mod 16 < 16) by (apply Z.mod_pos_bound; lia).
  rewrite (HexFacts.hexVal_hexDigit _ Hhi), (HexFacts.hexVal_hexDigit _ Hlo).
  repeat split; try discriminate. exact IH.
Qed.

(** Decoding undoes encoding. *)
Lemma fromHex_toHex (b : Buffer) : Forall isByte b -> fromHex (toHex b) = b.
Proof.
  induction 1 as [| x b Hx Hb IH]; cbn [toHex fromHex]; [reflexivity |].
  unfold isByte in Hx.
  assert (Hhi : 0 <= x / 16 < 16)
    by (split; [apply Z.div_pos; lia | apply Z.div_lt_upper_bound; lia]).
  assert (Hlo : 0 <= x mod 16 < 16) by (apply Z.mod_pos_bound; lia).
  rewrite (HexFacts.hexVal_hexDigit _ Hhi), (HexFacts.hexVal_hexDigit _ Hlo).
  rewrite IH. f_equal.
  pose proof (Z.div_mod x 16 ltac:(lia)). lia.
Qed.

(** Decoding goes through a concatenation whose first part is whole pairs of
    digits. *)
Lemma fromHex_app (m : nat) :
  forall s1 s2 : string,
    String.length s1 = (2 * m)%nat -> isHex s1 ->
    fromHex (s1 ++ s2) = fromHex s1 ++ fromHex s2.
Proof.
  induction m as [| m IH]; intros s1 s2 Hlen Hhex.
  - destruct s1; [reflexivity | discriminate].
  - destruct s1 as [| a [| b rest]]; try (cbn [String.length] in Hlen; lia).
    cbn [String.length] in Hlen. destruct Hhex as (Ha & Hb & Hrest).
    cbn [append fromHex].
    destruct (hexVal a); [| congruence]. destruct (hexVal b); [| congruence].
    rewrite (IH rest s2) by (lia || assumption). reflexivity.
Qed.

Lemma isByte_bytesOfString (message : string) : Forall isByte (bytesOfString message).
Proof.
  unfold bytesOfString. apply Forall_map, Forall_forall. intros c _.
  unfold isByte. pose proof (nat_ascii_bounded c). lia.
Qed.

Lemma length_bytesOfString (message : string) :
  List.length (bytesOfString message) = String.length message.
Proof.
  unfold bytesOfString. rewrite length_map.
  induction message as [| c message IH]; cbn; [reflexivity | now rewrite IH].
Qed.

(** Every digit of [toHex], upper-cased, is one of 0-9 and A-F. *)
Lemma upper_hexDigit (x : Z) : isUpperHexDigit (upper (hexDigit x)).
Proof.
  unfold isUpperHexDigit.
  destruct x as [| p | p]; [cbn; tauto | | cbn; tauto].
  do 4 (destruct p as [p | p |]; try (cbn; tauto)).
Qed.

End HexCodec.

(** X7: for an address whose hash is twenty bytes in hexadecimal, the script
    decodes to OP_DUP OP_HASH160 20 hash OP_EQUALVERIFY OP_CHECKSIG, 25
    bytes, when it is pay-to-pubkey-hash, and to OP_HASH160 20 hash OP_EQUAL,
    23 bytes, when it is pay-to-script-hash. *)
Theorem generateScript_bytes :
  forall {SplitTx SignedTx : Type} (this : Provider SplitTx SignedTx)
         (address script : string),
    let hash := addressToPubKeyHash this address in
    String.length hash = 40%nat -> Hex.isHex hash ->
    generateScript this address = Ok script ->
    List.length (Hex.fromHex hash) = 20%nat
    /\ ((addressType this address = pubKeyHash (_network this)
         /\ Hex.fromHex script = [118; 169; 20] ++ Hex.fromHex hash ++ [136; 172]
         /\ List.length (Hex.fromHex script) = 25%nat)
        \/ (addressType this address = scriptHash (_network this)
            /\ Hex.fromHex script = [169; 20] ++ Hex.fromHex hash ++ [135]
            /\ List.length (Hex.fromHex script) = 23%nat)).
Proof.
  intros SplitTx SignedTx this address script hash Hlen Hhex.
  destruct (HexFacts.fromHex_spec 20 hash Hlen Hhex) as (Hbytes & _ & _).
  unfold generateScript. fold hash.
  destruct (String.eqb_spec (addressType this address) (pubKeyHash (_network this)))
    as [Hp | _].
  - intros [= <-]. split; [exact Hbytes | left]. split; [exact Hp |].
    cbn [String.concat append Hex.fromHex].
    change (Hex.hexVal "7") with (Some 7). change (Hex.hexVal "6") with (Some 6).
    change (Hex.hexVal "a") with (Some 10). change (Hex.hexVal "9") with (Some 9).
    change (Hex.hexVal "1") with (Some 1). change (Hex.hexVal "4") with (Some 4).
    cbv iota beta.
    rewrite (HexCodec.fromHex_app 20 hash) by assumption.
    split; [reflexivity |].
    cbn [List.length]. rewrite length_app, Hbytes. reflexivity.
  - destruct (String.eqb_spec (addressType this address) (scriptHash (_network this)))
      as [Hs | _]; [| discriminate].
    intros [= <-]. split; [exact Hbytes | right]. split; [exact Hs |].
    cbn [String.concat append Hex.fromHex].
    change (Hex.hexVal "a") with (Some 10). change (Hex.hexVal "9") with (Some 9).
    change (Hex.hexVal "1") with (Some 1). change (Hex.hexVal "4") with (Some 4).
    cbv iota beta.
    rewrite (HexCodec.fromHex_app 20 hash) by assumption.
    split; [reflexivity |].
    cbn [List.length]. rewrite length_app, Hbytes. reflexivity.
Qed.

Lemma generateScript_bytes_witness :
  let this := Sample.provider Sample.neverUsed Sample.noCoins in
  Hex.fromHex "76a914000102030405060708090a0b0c0d0e0f1011121388ac"
  = [118; 169; 20; 0; 1; 2; 3; 4; 5; 6; 7; 8; 9; 10; 11; 12; 13; 14; 15; 16; 17; 18; 19;
     136; 172].
Proof.
  intros this.
  destruct (generateScript_bytes this "1BoatSLRHtKNngkdXEeobR76b53LETtpyT" _
              eq_refl
              ltac:(cbn; repeat split; discriminate)
              eq_refl)
    as (_ & [(_ & Hbytes & _) | (Habsurd & _)]).
  - exact Hbytes.
  - discriminate Habsurd.
Defined.

(** X8: the type read off an address is empty or two upper-case hexadecimal
    digits, so a network table whose version bytes are written otherwise, in
    lower case for instance, makes every address invalid. *)
Theorem addressType_is_upper_case :
  forall {SplitTx SignedTx : Type} (this : Provider SplitTx SignedTx) (address : string),
    isVersionByteText (addressType this address)
    /\ (~ isVersionByteText (pubKeyHash (_network this)) ->
        ~ isVersionByteText (scriptHash (_network this)) ->
        generateScript this address = Throw "Not a valid address:").
Proof.
  intros SplitTx SignedTx this address.
  assert (Hshape : isVersionByteText (addressType this address)).
  { rewrite addressType_version_byte.
    destruct (base58_decode this address) as [| version rest]; [now left | right].
    do 2 eexists. split; [reflexivity |].
    split; apply HexCodec.upper_hexDigit. }
  split; [exact Hshape |].
  intros Hp Hs. unfold generateScript.
  destruct (String.eqb_spec (addressType this address) (pubKeyHash (_network this)))
    as [Heq | _]; [now rewrite Heq in Hshape |].
  destruct (String.eqb_spec (addressType this address) (scriptHash (_network this)))
    as [Heq | _]; [now rewrite Heq in Hshape | reflexivity].
Qed.

Lemma lower_case_is_no_version_byte (c1 c2 : ascii) :
  ~ isUpperHexDigit c1 \/ ~ isUpperHexDigit c2 ->
  ~ isVersionByteText (String c1 (String c2 "")).
Proof.
  intros Hlower [Hempty | (d1 & d2 & Heq & Hd1 & Hd2)]; [discriminate |].
  injection Heq as -> ->. tauto.
Qed.

Lemma addressType_is_upper_case_witness :
  generateScript
    (onNetwork lowerCaseTestnet (Sample.provider Sample.neverUsed Sample.noCoins))
    "mipcBbFg9gMiCh81Kj8tqqdgoZub1ZJRfn"
  = Throw "Not a valid address:".
Proof.
  apply (proj2 (addressType_is_upper_case
                  (onNetwork lowerCaseTestnet
                     (Sample.provider Sample.neverUsed Sample.noCoins))
                  "mipcBbFg9gMiCh81Kj8tqqdgoZub1ZJRfn")).
  - apply lower_case_is_no_version_byte. right. unfold isUpperHexDigit. cbn.
    intros H. repeat (destruct H as [H | H]; [discriminate H |]). exact H.
  - apply lower_case_is_no_version_byte. left. unfold isUpperHexDigit. cbn.
    intros H. repeat (destruct H as [H | H]; [discriminate H |]). exact H.
Defined.

(** ** createSignedTransaction: what a request is made of *)

Section RequestFacts.

Context {SplitTx SignedTx : Type}.
Variable this : Provider SplitTx SignedTx.

Lemma generateScript_message (address message : string) :
  generateScript this address = Throw message -> message = "Not a valid address:".
Proof.
  unfold generateScript.
  destruct (String.eqb _ _); [discriminate |].
  destruct (String.eqb _ _); [discriminate |].
  now intros [= <-].
Qed.

Lemma generateScript_runs (address : string) : generateScript this address <> Timeout.
Proof.
  unfold generateScript.
  destruct (String.eqb _ _); [discriminate |].
  destruct (String.eqb _ _); discriminate.
Qed.

(** The request once the search and the selection have returned, by the
    three ways the selected value compares with the two costs. *)
Lemma paymentRequest_by_cost
      (fuel : nat) (to : string) (value : Z) (data : option string) (from : option From)
      (unusedAddress : Address.t) (utxos : list UTXO.t) :
  getUnusedAddress this fuel from = Ok unusedAddress ->
  getUtxosForAmount this fuel value None = Ok utxos ->
  let total := sumValues utxos in
  let n := List.length utxos in
  let recipient sendScript :=
    {| amount := getAmountBuffer (Num value); script := Hex.fromHex sendScript |} in
  let request outs :=
    {| ledgerInputs := getLedgerInputs this utxos;
       paths := map UTXO.derivationPath utxos;
       changePath := Address.derivationPath unusedAddress;
       outputs := outs |} in
  ((total < oneOutputCost value n \/ oneOutputCost value n < total < twoOutputCost value n) ->
   paymentRequest this fuel to value data from = Throw "Not enough balance")
  /\ (total = oneOutputCost value n ->
      paymentRequest this fuel to value data from
      = sendScript <- generateScript this (recipientAddress this to data) ;;
        Ok (request [recipient sendScript]))
  /\ (twoOutputCost value n <= total ->
      paymentRequest this fuel to value data from
      = sendScript <- generateScript this (recipientAddress this to data) ;;
        changeScript <- generateScript this (Address.address unusedAddress) ;;
        Ok (request [recipient sendScript;
                     {| amount := getAmountBuffer (Num (total - twoOutputCost value n));
                        script := Hex.fromHex changeScript |}])).
Proof.
  intros Hunused Hselected total n recipient request.
  rewrite (paymentRequest_after_selection this fuel to value data from
             unusedAddress utxos Hunused Hselected).
  rewrite totalCostOf_eq. cbv zeta. fold total.
  unfold oneOutputCost, twoOutputCost. fold n.
  repeat split.
  - intros Hshort.
    destruct (Z.ltb_spec (value + (Z.of_nat n * 148 + 1 * 34 + 10) * 3) total);
      cbn [Js.lt];
      match goal with |- context [?a <? ?b] => destruct (Z.ltb_spec a b) end;
      (reflexivity || lia).
  - intros Hexact.
    destruct (Z.ltb_spec (value + (Z.of_nat n * 148 + 1 * 34 + 10) * 3) total);
      [lia |].
    cbn [Js.lt].
    match goal with |- context [?a <? ?b] => destruct (Z.ltb_spec a b) end; [lia |].
    destruct (generateScript this (recipientAddress this to data)); reflexivity.
  - intros Hcovered.
    destruct (Z.ltb_spec (value + (Z.of_nat n * 148 + 1 * 34 + 10) * 3) total);
      [| lia].
    cbn [Js.lt].
    match goal with |- context [?a <? ?b] => destruct (Z.ltb_spec a b) end; [lia |].
    destruct (generateScript this (recipientAddress this to data)); cbn [bind];
      [| reflexivity | reflexivity].
    destruct (generateScript this (Address.address unusedAddress)); reflexivity.
Qed.

End RequestFacts.










(** ** signMessage and the hexadecimal payloads *)

Lemma bytesOfString_inj (a : string) :
  forall b : string, bytesOfString a = bytesOfString b -> a = b.
Proof.
  unfold bytesOfString.
  induction a as [| c a IH]; intros [| d b]; cbn [list_ascii_of_string map];
    try discriminate; [reflexivity |].
  intros [= Hc Hrest]. apply Nat2Z.inj in Hc.
  f_equal; [| now apply IH].
  rewrite <- (ascii_nat_embedding c), <- (ascii_nat_embedding d). now rewrite Hc.
Qed.

(** X13: a message goes to the device as two lower-case hexadecimal digits
    per byte, from which the bytes of the message are recovered by decoding;
    two messages with the same payload are the same message.  The derivation
    path is looked up only when the sender has none. *)
Theorem signMessage_payload :
  forall {Signature : Type} (signer : MessageSigner Signature)
         (message : string) (from : Address.t),
    signMessage signer message from
    = signMessageNew signer (signingPath signer from) (messageHex message)
    /\ String.length (messageHex message) = (2 * String.length message)%nat
    /\ Hex.isHex (messageHex message)
    /\ Hex.fromHex (messageHex message) = bytesOfString message
    /\ (forall other : string, messageHex other = messageHex message -> other = message)
    /\ (Address.derivationPath from <> "" ->
        signingPath signer from = Address.derivationPath from).
Proof.
  intros Signature signer message from. unfold messageHex.
  split; [reflexivity |].
  split; [now rewrite HexCodec.length_toHex, HexCodec.length_bytesOfString |].
  split; [apply HexCodec.isHex_toHex, HexCodec.isByte_bytesOfString |].
  split; [apply HexCodec.fromHex_toHex, HexCodec.isByte_bytesOfString |].
  split.
  - intros other Hsame. apply bytesOfString_inj.
    rewrite <- (HexCodec.fromHex_toHex _ (HexCodec.isByte_bytesOfString other)).
    rewrite Hsame. apply HexCodec.fromHex_toHex, HexCodec.isByte_bytesOfString.
  - intros Hpath. unfold signingPath.
    now destruct (String.eqb_spec (Address.derivationPath from) "").
Qed.

Lemma signMessage_payload_witness :
  messageHex "swap" = "73776170"
  /\ signingPath {| signMessageNew := fun path hex => (path, hex);
                    getDerivationPathFromAddress := fun _ => "looked up" |}
                 {| Address.address := "1BoatSLRHtKNngkdXEeobR76b53LETtpyT";
                    Address.derivationPath := "44'/0'/0'/0/7" |}
     = "44'/0'/0'/0/7".
Proof.
  split; [reflexivity |].
  apply (proj2 (proj2 (proj2 (proj2 (proj2
           (signMessage_payload
              {| signMessageNew := fun path hex => (path, hex);
                 getDerivationPathFromAddress := fun _ => "looked up" |}
              "swap"
              {| Address.address := "1BoatSLRHtKNngkdXEeobR76b53LETtpyT";
                 Address.derivationPath := "44'/0'/0'/0/7" |})))))).
  discriminate.
Defined.

(** The amount field of an amount below 2^64 reads back as the amount. *)
Lemma leValue_getAmountBuffer (a : Z) :
  0 <= a < 2 ^ 64 -> Hex.leValue (getAmountBuffer (Num a)) = a.
Proof.
  intros Ha. destruct (padded_amount a Ha) as (Hlen & Hhex & Hval).
  destruct (HexFacts.fromHex_spec 8 _ Hlen Hhex) as (_ & _ & Hv).
  unfold getAmountBuffer. now rewrite Hv.
Qed.


